(** * Farm boundary selection screen ([travel/index.jsx])

    A shallow embedding of the [Travel] React component: its six state
    cells, the mount effect that asks for the location, the press handlers
    and the three screens it can render.  Calls into the host platform
    (expo-location, expo-router, alert, console, the map's imperative handle)
    are recorded, in order, in a log. *)

From Stdlib Require Import List String Ascii Bool ZArith Lia PrimFloat.
From Stdlib Require Import DecimalString DecimalNat.
Import ListNotations.
Local Open Scope string_scope.
Local Open Scope list_scope.
Set Warnings "-inexact-float".

(** ** Data *)

(** A JavaScript number is an IEEE 754 double. *)
Definition number := float.

(** [event.nativeEvent.coordinate] as react-native-maps delivers it. *)
Record LatLng := mkLatLng {
  c_latitude : number;
  c_longitude : number
}.

Record NativeEvent := mkNativeEvent { coordinate : LatLng }.
Record PressEvent := mkPressEvent { nativeEvent : NativeEvent }.

(** The object literals handed to [setRegion] and [animateToRegion]. *)
Record Region := mkRegion {
  latitude : number;
  longitude : number;
  latitudeDelta : number;
  longitudeDelta : number
}.

(** [location.coords], as far as the component reads it. *)
Record Coords := mkCoords {
  coords_latitude : number;
  coords_longitude : number
}.
Record LocationObject := mkLocation { coords : Coords }.

(** The [useState] cells of the component, in declaration order. *)
Record State := mkState {
  region : option Region;
  polygonPoints : list LatLng;
  isSelecting : bool;
  loading : bool;
  loadingLocation : bool;
  errorMsg : option string
}.

(** The arguments of the [useState] calls. *)
Definition initialState : State :=
  mkState None [] true true true None.

(** ** The host platform *)

(** A thrown JavaScript value, kept as its message. *)
Definition JSError := string.

(** How an awaited promise settles. *)
Inductive Settled (A : Type) : Type :=
| Fulfilled (a : A)
| Rejected (e : JSError).
Arguments Fulfilled {A} a.
Arguments Rejected {A} e.

(** [Location.Accuracy] of expo-location. *)
Inductive Accuracy :=
| Lowest | Low | Balanced | High | Highest | BestForNavigation.

(** The options object of [getCurrentPositionAsync]; a key that the call
    site leaves out is [None]. *)
Record LocationOptions := mkLocationOptions {
  accuracy : Accuracy;
  maximumAge : option Z
}.

(** One call that leaves the component. *)
Inductive Effect :=
| RequestForegroundPermissionsAsync
| GetCurrentPositionAsync (options : LocationOptions)
| RouterPush (pathname : string) (polygonData : string)
| Alert (message : string)
| ConsoleError (label : string) (error : JSError)
| AnimateToRegion (target : Region) (duration : Z).

(** ** Statements with completions

    A handler reads and writes the state cells, logs its outside calls and
    completes normally, by [return], or by throwing. *)

Inductive Completion (A : Type) : Type :=
| Normal (a : A)
| Returned
| Thrown (e : JSError).
Arguments Normal {A} a.
Arguments Returned {A}.
Arguments Thrown {A} e.

Definition Cmd (A : Type) : Type :=
  State -> Completion A * State * list Effect.

Definition ret {A} (a : A) : Cmd A :=
  fun s => (Normal a, s, []).

Definition bind {A B} (m : Cmd A) (k : A -> Cmd B) : Cmd B :=
  fun s =>
    match m s with
    | (Normal a, s1, w1) =>
        match k a s1 with (r, s2, w2) => (r, s2, w1 ++ w2) end
    | (Returned, s1, w1) => (Returned, s1, w1)
    | (Thrown e, s1, w1) => (Thrown e, s1, w1)
    end.

Declare Scope cmd_scope.
Delimit Scope cmd_scope with cmd.
Notation "x <- m ;; k" := (bind m (fun x => k))
  (at level 61, m at next level, right associativity) : cmd_scope.
Notation "m ;; k" := (bind m (fun _ => k))
  (at level 61, right associativity) : cmd_scope.
Local Open Scope cmd_scope.

(** [return;] *)
Definition return_ {A} : Cmd A :=
  fun s => (Returned, s, []).

(** A call whose result is not awaited. *)
Definition call (e : Effect) : Cmd unit :=
  fun s => (Normal tt, s, [e]).

(** [await e]: the call is made, the continuation sees how it settled. *)
Definition await {A} (e : Effect) (outcome : Settled A) : Cmd A :=
  fun s =>
    (match outcome with
     | Fulfilled a => Normal a
     | Rejected err => Thrown err
     end, s, [e]).

(** [try { body } catch (error) { handler error }] *)
Definition try_catch {A} (body : Cmd A) (handler : JSError -> Cmd A) : Cmd A :=
  fun s =>
    match body s with
    | (Thrown e, s1, w1) =>
        match handler e s1 with (r, s2, w2) => (r, s2, w1 ++ w2) end
    | other => other
    end.

(** [try { body } finally { fin }]: [fin] runs however [body] completed, and
    the completion of [body] stands unless [fin] itself completes abruptly. *)
Definition try_finally {A} (body : Cmd A) (fin : Cmd unit) : Cmd A :=
  fun s =>
    match body s with
    | (r, s1, w1) =>
        match fin s1 with
        | (Normal _, s2, w2) => (r, s2, w1 ++ w2)
        | (Returned, s2, w2) => (Returned, s2, w1 ++ w2)
        | (Thrown e, s2, w2) => (Thrown e, s2, w1 ++ w2)
        end
    end.

(** The state setters returned by [useState]. *)
Definition setRegion (v : option Region) : Cmd unit :=
  fun s => (Normal tt,
            mkState v (polygonPoints s) (isSelecting s) (loading s)
                    (loadingLocation s) (errorMsg s), []).
Definition setPolygonPoints (v : list LatLng) : Cmd unit :=
  fun s => (Normal tt,
            mkState (region s) v (isSelecting s) (loading s)
                    (loadingLocation s) (errorMsg s), []).
Definition setIsSelecting (v : bool) : Cmd unit :=
  fun s => (Normal tt,
            mkState (region s) (polygonPoints s) v (loading s)
                    (loadingLocation s) (errorMsg s), []).
Definition setLoading (v : bool) : Cmd unit :=
  fun s => (Normal tt,
            mkState (region s) (polygonPoints s) (isSelecting s) v
                    (loadingLocation s) (errorMsg s), []).
Definition setLoadingLocation (v : bool) : Cmd unit :=
  fun s => (Normal tt,
            mkState (region s) (polygonPoints s) (isSelecting s) (loading s)
                    v (errorMsg s), []).
Definition setErrorMsg (v : option string) : Cmd unit :=
  fun s => (Normal tt,
            mkState (region s) (polygonPoints s) (isSelecting s) (loading s)
                    (loadingLocation s) v, []).

(** ** Array and JSON built-ins *)

(** [Array.prototype.slice(start, end)] on integer arguments: a negative
    index counts from the end, and both are clamped to the array. *)
Definition slice {A} (l : list A) (start end_ : Z) : list A :=
  let len := Z.of_nat (List.length l) in
  let k := if (start <? 0)%Z then Z.max (len + start) 0 else Z.min start len in
  let final := if (end_ <? 0)%Z then Z.max (len + end_) 0 else Z.min end_ len in
  firstn (Z.to_nat (Z.max (final - k) 0)) (skipn (Z.to_nat k) l).

Definition dquote : string := String (ascii_of_nat 34) EmptyString.
Definition quoted (key : string) : string := (dquote ++ key ++ dquote)%string.

Fixpoint join (sep : string) (parts : list string) : string :=
  match parts with
  | [] => ""
  | p :: rest =>
      match rest with
      | [] => p
      | _ :: _ => (p ++ sep ++ join sep rest)%string
      end
  end.

(** Truthiness of a string-or-null and of an object-or-null. *)
Definition truthy_string (v : option string) : bool :=
  match v with
  | Some str => negb (str =? "")%string
  | None => false
  end.

Definition truthy_object {A} (v : option A) : bool :=
  match v with
  | Some _ => true
  | None => false
  end.

(** ** What the component renders *)

Inductive Screen :=
| LoadingScreen (loadingText : string)
| ErrorScreen (errorText : option string)
| MapScreen (initialRegion : option Region)
            (markers : list LatLng)
            (undoDisabled resetDisabled : bool)
            (completeShown : bool).

(** The condition under which the Complete button is rendered. *)
Definition readyToComplete (s : State) : bool :=
  isSelecting s && (3 <=? List.length (polygonPoints s))%nat.

(** The three [return]s of the component body. *)
Definition render (s : State) : Screen :=
  if loading s then
    LoadingScreen (if loadingLocation s
                   then "Getting your location..."
                   else "Loading map...")
  else if truthy_string (errorMsg s) && negb (truthy_object (region s)) then
    ErrorScreen (errorMsg s)
  else
    MapScreen (region s) (polygonPoints s)
              (List.length (polygonPoints s) =? 0)%nat
              (List.length (polygonPoints s) =? 0)%nat
              (readyToComplete s).

(** [mapRef.current] is attached exactly while the [MapView] is mounted. *)
Definition mapRef_current (s : State) : bool :=
  match render s with
  | MapScreen _ _ _ _ _ => true
  | _ => false
  end.

(** [mapRef.current?.animateToRegion(r, d)]: the ref is read when the call
    is reached, and the call is skipped while it is null. *)
Definition mapRef_animateToRegion (r : Region) (d : Z) : Cmd unit :=
  fun s => (Normal tt, s,
            if mapRef_current s then [AnimateToRegion r d] else []).

Section Travel.

(** ECMAScript's [Number::toString] on a finite double (the shortest decimal
    that reads back as the same double); it belongs to the language, not to
    this repository. *)
Variable Number_toString : number -> string.

(** [JSON.stringify] of a number: [NaN] and the infinities print as null. *)
Definition stringify_number (x : number) : string :=
  if is_finite x then Number_toString x else "null".

(** [JSON.stringify] of a coordinate object, keys in creation order. *)
Definition stringify_LatLng (p : LatLng) : string :=
  ("{" ++ quoted "latitude" ++ ":" ++ stringify_number (c_latitude p)
   ++ "," ++ quoted "longitude" ++ ":" ++ stringify_number (c_longitude p)
   ++ "}")%string.

(** [JSON.stringify] of the array of points. *)
Definition JSON_stringify (points : list LatLng) : string :=
  ("[" ++ join "," (map stringify_LatLng points) ++ "]")%string.

(** ** The component's functions

    Every function below is a closure created by one render: [view] is the
    state that render saw, and is what the function reads; the setters write
    to the live cells. *)

(** The region literal of the [catch] branch. *)
Definition defaultRegion : Region :=
  mkRegion 37.78825%float (- 122.4324)%float 0.015%float 0.0121%float.

(** The body of the mount effect.  [permission] is how
    [requestForegroundPermissionsAsync] settles (its [status] field) and
    [position] how [getCurrentPositionAsync] does. *)
Definition initialize (permission : Settled string)
                      (position : Settled LocationObject) : Cmd unit :=
  setLoading true ;;
  setLoadingLocation true ;;
  try_finally
    (try_catch
       (status <- await RequestForegroundPermissionsAsync permission ;;
        (if negb (status =? "granted")%string then
           setErrorMsg (Some "Permission to access location was denied") ;;
           setLoadingLocation false ;;
           return_
         else ret tt) ;;
        location <- await (GetCurrentPositionAsync
                             (mkLocationOptions Highest (Some 10000%Z)))
                          position ;;
        setRegion (Some (mkRegion (coords_latitude (coords location))
                                  (coords_longitude (coords location))
                                  0.005%float 0.005%float)))
       (fun error =>
          setErrorMsg
            (Some "Could not fetch location. Please check your GPS settings.") ;;
          call (ConsoleError "Location error:" error) ;;
          setRegion (Some defaultRegion)))
    (setLoadingLocation false ;;
     setLoading false).

Definition handleMapPress (view : State) (event : PressEvent) : Cmd unit :=
  if isSelecting view then
    let coordinate := coordinate (nativeEvent event) in
    setPolygonPoints (polygonPoints view ++ [coordinate])
  else ret tt.

Definition resetSelection (view : State) : Cmd unit :=
  setPolygonPoints [] ;;
  setIsSelecting true.

Definition undoLastPoint (view : State) : Cmd unit :=
  if (0 <? List.length (polygonPoints view))%nat then
    setPolygonPoints (slice (polygonPoints view) 0 (-1))
  else ret tt.

Definition completePolygon (view : State) : Cmd unit :=
  if (3 <=? List.length (polygonPoints view))%nat then
    call (RouterPush "/(tabs)/travel/routescreen"
                     (JSON_stringify (polygonPoints view)))
  else
    call (Alert "Please select at least 3 points to form a valid area").

Definition centerOnLocation (view : State)
                            (position : Settled LocationObject) : Cmd unit :=
  if truthy_object (region view) then
    try_catch
      (location <- await (GetCurrentPositionAsync
                            (mkLocationOptions Highest None))
                         position ;;
       let newRegion :=
         mkRegion (coords_latitude (coords location))
                  (coords_longitude (coords location))
                  0.005%float 0.005%float in
       mapRef_animateToRegion newRegion 1000)
      (fun error =>
         call (Alert "Could not get current location") ;;
         call (ConsoleError "Location error:" error))
  else ret tt.

(** The inline [onPress] of the Retry button. *)
Definition retry_onPress (view : State) : Cmd unit :=
  setErrorMsg None ;;
  setLoading true ;;
  setLoadingLocation true.

(** ** Presses and commits *)

(** Runs a handler to completion; the completion value itself is dropped,
    as it is for an event handler or an un-awaited async call. *)
Definition run (c : Cmd unit) (s : State) : State * list Effect :=
  match c s with (_, s', w) => (s', w) end.

(** An event reaches the closure made by the latest render: the handler's
    [view] is the state it then runs against. *)
Definition dispatch (h : State -> Cmd unit) (s : State) : State * list Effect :=
  run (h s) s.

(** The presses the screens can deliver.  A location press carries how the
    position request it starts will settle. *)
Inductive UIEvent :=
| MapPress (event : PressEvent)
| UndoPress
| ResetPress
| CompletePress
| LocatePress (position : Settled LocationObject)
| RetryPress.

(** The [onPress] props. *)
Definition onPress (e : UIEvent) (view : State) : Cmd unit :=
  match e with
  | MapPress event => handleMapPress view event
  | UndoPress => undoLastPoint view
  | ResetPress => resetSelection view
  | CompletePress => completePolygon view
  | LocatePress position => centerOnLocation view position
  | RetryPress => retry_onPress view
  end.

(** Which presses a screen offers: a control that is not rendered, or is
    rendered [disabled], delivers none. *)
Definition offered (scr : Screen) (e : UIEvent) : bool :=
  match scr with
  | LoadingScreen _ => false
  | ErrorScreen _ =>
      match e with RetryPress => true | _ => false end
  | MapScreen _ _ undoDisabled resetDisabled completeShown =>
      match e with
      | MapPress _ => true
      | UndoPress => negb undoDisabled
      | ResetPress => negb resetDisabled
      | CompletePress => completeShown
      | LocatePress _ => true
      | RetryPress => false
      end
  end.

(** How the two platform requests of the mount effect settle. *)
Record Environment := mkEnvironment {
  permission : Settled string;
  position : Settled LocationObject
}.

(** The dependency array of the [useEffect] call: the empty array. *)
Definition initialize_deps (view : State) : list bool := [].

(** React's comparison of two dependency arrays of one effect. *)
Fixpoint deps_changed (prev next : list bool) : bool :=
  match prev, next with
  | a :: prev', b :: next' => negb (Bool.eqb a b) || deps_changed prev' next'
  | _, _ => false
  end.

(** After a commit the effect runs if the component has just mounted
    ([prev] is [None]) or one of its dependencies changed. *)
Definition commit (env : Environment) (prev : option State) (s : State)
  : State * list Effect :=
  match prev with
  | None => run (initialize (permission env) (position env)) s
  | Some p =>
      if deps_changed (initialize_deps p) (initialize_deps s)
      then run (initialize (permission env) (position env)) s
      else (s, [])
  end.

(** Mounting: first render from the initial cells, then the effect. *)
Definition mount (env : Environment) : State * list Effect :=
  commit env None initialState.

(** One press: the handler runs, the component re-renders and commits. *)
Definition press (env : Environment) (e : UIEvent) (s : State)
  : State * list Effect :=
  match dispatch (onPress e) s with
  | (s1, w1) =>
      match commit env (Some s) s1 with
      | (s2, w2) => (s2, w1 ++ w2)
      end
  end.

(** A run of presses, each delivered to the screen the previous one left. *)
Fixpoint presses (env : Environment) (es : list UIEvent) (s : State)
  : State * list Effect :=
  match es with
  | [] => (s, [])
  | e :: rest =>
      match press env e s with
      | (s1, w1) =>
          match presses env rest s1 with
          | (s2, w2) => (s2, w1 ++ w2)
          end
      end
  end.

(** The press event of a tap on the map at coordinate [c]. *)
Definition pressAt (c : LatLng) : PressEvent :=
  mkPressEvent (mkNativeEvent c).

(** A run of map taps at the given coordinates. *)
Definition tap (c : LatLng) : State -> Cmd unit :=
  fun view => handleMapPress view (pressAt c).

Fixpoint taps (cs : list LatLng) (s : State) : State :=
  match cs with
  | [] => s
  | c :: rest => taps rest (fst (dispatch (tap c) s))
  end.

(** States the user can bring the component to from [s]: by presses that
    the screen on display offers. *)
Inductive reaches (s : State) : State -> Prop :=
| reaches_refl : reaches s s
| reaches_press env e s1 :
    reaches s s1 ->
    offered (render s1) e = true ->
    reaches s (fst (press env e s1)).

(** States of a mounted component: the first render, the state the mount
    effect leaves, and what presses make of them. *)
Inductive reachable : State -> Prop :=
| reachable_first_render : reachable initialState
| reachable_mounted env s : reaches (fst (mount env)) s -> reachable s.

(** Observers of a call log. *)
Definition navigations (w : list Effect) : list (string * string) :=
  flat_map (fun e => match e with
                     | RouterPush pathname data => [(pathname, data)]
                     | _ => []
                     end) w.

Definition warnings (w : list Effect) : list string :=
  flat_map (fun e => match e with
                     | Alert message => [message]
                     | _ => []
                     end) w.

Definition permission_requests (w : list Effect) : nat :=
  List.length (filter (fun e => match e with
                                | RequestForegroundPermissionsAsync => true
                                | _ => false
                                end) w).

Definition position_requests (w : list Effect) : nat :=
  List.length (filter (fun e => match e with
                                | GetCurrentPositionAsync _ => true
                                | _ => false
                                end) w).

(** The message and path literals of the source, named. *)
Definition deniedMsg : string := "Permission to access location was denied".
Definition fetchFailedMsg : string :=
  "Could not fetch location. Please check your GPS settings.".

Definition routescreen : string := "/(tabs)/travel/routescreen".
Definition tooFewMsg : string :=
  "Please select at least 3 points to form a valid area".

(** The state in which a refused permission leaves a fresh component. *)
Definition deniedState : State :=
  mkState None [] true false false (Some deniedMsg).

(** The invariant of a mounted component: selection is on, and once loading
    is over a missing region comes with an error message (so the map screen
    always has a region). *)
Definition mounted_invariant (s : State) : Prop :=
  isSelecting s = true
  /\ (loading s = false -> region s = None ->
      truthy_string (errorMsg s) = true).

(** ** Map overlays

    The children of the [MapView]: one numbered marker per point and, from
    two points on, one line per pair of neighbours. *)

(** [Array.prototype.map] with a callback that also takes the index. *)
Fixpoint map_indexed_from {A B} (f : A -> nat -> B) (index : nat) (l : list A)
  : list B :=
  match l with
  | [] => []
  | x :: rest => f x index :: map_indexed_from f (S index) rest
  end.

Definition map_indexed {A B} (f : A -> nat -> B) (l : list A) : list B :=
  map_indexed_from f 0 l.

(** The decimal text of an array index inside a template literal. *)
Definition index_text (index : nat) : string :=
  NilEmpty.string_of_uint (Nat.to_uint index).

(** A [Marker]: its [key], its [coordinate] and the number in its [Text]. *)
Record MarkerElement := mkMarker {
  marker_key : nat;
  marker_coordinate : LatLng;
  marker_text : nat
}.

(** A two-point [Polygon] used as a line: its [key] and the two entries of
    its [coordinates]; the second is an array read, undefined ([None]) when
    out of range. *)
Record LineElement := mkLine {
  line_key : string;
  line_from : LatLng;
  line_to : option LatLng
}.

(** [polygonPoints.map((point, index) => <Marker key={index} ...>)] *)
Definition markers (s : State) : list MarkerElement :=
  map_indexed (fun point index => mkMarker index point (index + 1))
              (polygonPoints s).

(** The callback of the connection lines: [null] at the last index. *)
Definition connectionLine (points : list LatLng) (point : LatLng) (index : nat)
  : option LineElement :=
  if (Z.of_nat index =? Z.of_nat (List.length points) - 1)%Z then None
  else Some (mkLine ("line-" ++ index_text index)%string
                    point
                    (nth_error points (index + 1))).

(** [polygonPoints.length > 1 && polygonPoints.map(...)]; a [false] child
    renders nothing. *)
Definition connectionLines (s : State) : list (option LineElement) :=
  if (1 <? List.length (polygonPoints s))%nat then
    map_indexed (connectionLine (polygonPoints s)) (polygonPoints s)
  else [].

(** What React draws of a list of children: [null] renders nothing. *)
Definition drawn (children : list (option LineElement)) : list LineElement :=
  flat_map (fun child => match child with
                         | Some line => [line]
                         | None => []
                         end) children.

(** The lines that are actually drawn. *)
Definition drawnLines (s : State) : list LineElement :=
  drawn (connectionLines s).

(** The line from a point to its successor, as the callback builds it at
    [index]. *)
Definition neighbour_line (ends : LatLng * LatLng) (index : nat) : LineElement :=
  mkLine ("line-" ++ index_text index)%string (fst ends) (Some (snd ends)).

(** How many presses of a run satisfy a test. *)
Definition count_presses (test : UIEvent -> bool) (es : list UIEvent) : nat :=
  List.length (filter test es).

Definition is_complete_press (e : UIEvent) : bool :=
  match e with CompletePress => true | _ => false end.

Definition is_locate_press (e : UIEvent) : bool :=
  match e with LocatePress _ => true | _ => false end.

(** *** Sample data for concrete runs *)

(** A stand-in number printer for the runs below; none of the results
    depends on what it prints. *)
Definition print_zero (x : number) : string := "0".

Definition grantedEnv : Environment :=
  mkEnvironment (Fulfilled "granted")
                (Fulfilled (mkLocation (mkCoords 18.5204%float 73.8567%float))).

Definition pointA : LatLng := mkLatLng 18.5211%float 73.8553%float.
Definition pointB : LatLng := mkLatLng 18.5219%float 73.8561%float.
Definition pointC : LatLng := mkLatLng 18.5207%float 73.8572%float.

Definition fallbackEnv : Environment :=
  mkEnvironment (Fulfilled "granted") (Rejected "timeout").

Definition threePoints : State :=
  taps [pointA; pointB; pointC] (fst (mount grantedEnv)).

(** ** Properties *)

(** *** Built-ins *)

Lemma slice_drop_last {A} (l : list A) : slice l 0 (-1) = removelast l.
Proof.
  unfold slice. cbn [Z.ltb Z.compare].
  set (len := Z.of_nat (List.length l)).
  replace (Z.to_nat (Z.min 0 len)) with 0%nat by lia.
  replace (Z.to_nat (Z.max (Z.max (len + -1) 0 - Z.min 0 len) 0))
    with (Nat.pred (List.length l)) by lia.
  cbn [skipn].
  symmetry. apply removelast_firstn_len.
Qed.

Lemma slice_drop_last_snoc {A} (l : list A) (x : A) :
  slice (l ++ [x]) 0 (-1) = l.
Proof. rewrite slice_drop_last. apply removelast_last. Qed.

Lemma append_assoc (a b c : string) :
  ((a ++ b) ++ c = a ++ (b ++ c))%string.
Proof.
  induction a as [|ch a IH]; cbn [append]; [reflexivity|].
  rewrite IH. reflexivity.
Qed.

(** *** Single handlers *)

Ltac run_handler :=
  unfold dispatch, run, tap, onPress,
    handleMapPress, resetSelection, undoLastPoint, completePolygon,
    centerOnLocation, retry_onPress,
    bind, ret, call, await, try_catch, try_finally, return_,
    setRegion, setPolygonPoints, setIsSelecting, setLoading,
    setLoadingLocation, setErrorMsg, mapRef_animateToRegion;
  cbn [fst snd region polygonPoints isSelecting loading loadingLocation
       errorMsg coordinate nativeEvent app].

Lemma state_eta (s : State) :
  mkState (region s) (polygonPoints s) (isSelecting s) (loading s)
          (loadingLocation s) (errorMsg s) = s.
Proof. destruct s; reflexivity. Qed.

Lemma dispatch_tap_selecting (s : State) (c : LatLng) :
  isSelecting s = true ->
  dispatch (tap c) s =
  (mkState (region s) (polygonPoints s ++ [c]) true (loading s)
           (loadingLocation s) (errorMsg s), []).
Proof.
  intros H. destruct s as [r pts sel ld ll em]. cbn in H. subst sel.
  reflexivity.
Qed.

Lemma dispatch_tap_idle (s : State) (c : LatLng) :
  isSelecting s = false -> dispatch (tap c) s = (s, []).
Proof.
  intros H. destruct s as [r pts sel ld ll em]. cbn in H. subst sel.
  reflexivity.
Qed.

Lemma taps_selecting (cs : list LatLng) :
  forall s, isSelecting s = true ->
  taps cs s =
  mkState (region s) (polygonPoints s ++ cs) true (loading s)
          (loadingLocation s) (errorMsg s).
Proof.
  induction cs as [|c cs IH]; intros s H; cbn [taps].
  - rewrite app_nil_r, <- H. apply eq_sym, state_eta.
  - rewrite dispatch_tap_selecting by exact H. cbn [fst].
    rewrite IH by reflexivity.
    cbn [region polygonPoints loading loadingLocation errorMsg].
    rewrite <- app_assoc. reflexivity.
Qed.

(** C2: while [isSelecting] is true, a run of N map taps appends exactly the
    tapped coordinates, in order and with repetitions kept, so the number of
    points grows by N and no other cell changes; while [isSelecting] is false
    a tap changes nothing and makes no outside call. *)
Theorem handleMapPress_appends_every_tap (s : State) :
  (isSelecting s = true ->
   forall cs : list LatLng,
     polygonPoints (taps cs s) = polygonPoints s ++ cs
     /\ List.length (polygonPoints (taps cs s))
        = (List.length (polygonPoints s) + List.length cs)%nat
     /\ region (taps cs s) = region s
     /\ isSelecting (taps cs s) = true
     /\ loading (taps cs s) = loading s
     /\ loadingLocation (taps cs s) = loadingLocation s
     /\ errorMsg (taps cs s) = errorMsg s)
  /\ (isSelecting s = false ->
      forall event : PressEvent,
        dispatch (fun view => handleMapPress view event) s = (s, [])).
Proof.
  split.
  - intros H cs. rewrite taps_selecting by exact H.
    cbn [region polygonPoints isSelecting loading loadingLocation errorMsg].
    rewrite length_app. repeat split; reflexivity.
  - intros H event. destruct s as [r pts sel ld ll em]. cbn in H. subst sel.
    reflexivity.
Qed.

(** C7: whatever the state, [resetSelection] leaves no point and
    [isSelecting] true. *)
Theorem resetSelection_clears (s : State) :
  List.length (polygonPoints (fst (dispatch resetSelection s))) = 0%nat
  /\ isSelecting (fst (dispatch resetSelection s)) = true.
Proof. run_handler. split; reflexivity. Qed.

(** C8: [undoLastPoint] drops exactly the last point of a non-empty list,
    keeping the others in place, and changes nothing when the list is empty;
    it touches no other cell and makes no outside call. *)
Theorem undoLastPoint_removes_last (s : State) :
  (forall (front : list LatLng) (last : LatLng),
     polygonPoints s = front ++ [last] ->
     polygonPoints (fst (dispatch undoLastPoint s)) = front)
  /\ (polygonPoints s = [] ->
      dispatch undoLastPoint s = (s, [])
      /\ List.length (polygonPoints (fst (dispatch undoLastPoint s))) = 0%nat)
  /\ polygonPoints (fst (dispatch undoLastPoint s)) = removelast (polygonPoints s)
  /\ region (fst (dispatch undoLastPoint s)) = region s
  /\ isSelecting (fst (dispatch undoLastPoint s)) = isSelecting s
  /\ loading (fst (dispatch undoLastPoint s)) = loading s
  /\ loadingLocation (fst (dispatch undoLastPoint s)) = loadingLocation s
  /\ errorMsg (fst (dispatch undoLastPoint s)) = errorMsg s
  /\ snd (dispatch undoLastPoint s) = [].
Proof.
  destruct s as [r pts sel ld ll em]. run_handler.
  destruct pts as [|p pts].
  - split; [|cbn; repeat split; reflexivity].
    intros front last E. destruct front; discriminate E.
  - cbn [List.length Nat.ltb Nat.leb fst snd polygonPoints region isSelecting
         loading loadingLocation errorMsg].
    split; [|split].
    + intros front last E. rewrite E. apply slice_drop_last_snoc.
    + intros E. discriminate E.
    + split; [apply slice_drop_last|]. repeat split; reflexivity.
Qed.

(** *** The mount effect *)

Ltac run_initialize :=
  unfold mount, commit, run, initialize,
    bind, ret, call, await, try_catch, try_finally, return_,
    setRegion, setPolygonPoints, setIsSelecting, setLoading,
    setLoadingLocation, setErrorMsg;
  cbn [fst snd region polygonPoints isSelecting loading loadingLocation
       errorMsg permission position app].

Lemma initialize_denied (s0 : State) (status : string)
                        (pos : Settled LocationObject) :
  status <> "granted" ->
  run (initialize (Fulfilled status) pos) s0 =
  (mkState (region s0) (polygonPoints s0) (isSelecting s0) false false
           (Some deniedMsg),
   [RequestForegroundPermissionsAsync]).
Proof.
  intros H. apply String.eqb_neq in H. run_initialize. rewrite H.
  reflexivity.
Qed.

Lemma initialize_fetch_failed (s0 : State) (e : JSError) :
  run (initialize (Fulfilled "granted") (Rejected e)) s0 =
  (mkState (Some defaultRegion) (polygonPoints s0) (isSelecting s0) false false
           (Some fetchFailedMsg),
   [RequestForegroundPermissionsAsync;
    GetCurrentPositionAsync (mkLocationOptions Highest (Some 10000%Z));
    ConsoleError "Location error:" e]).
Proof. reflexivity. Qed.

Lemma initialize_keeps_selection (perm : Settled string)
                                 (pos : Settled LocationObject) (s0 : State) :
  isSelecting (fst (run (initialize perm pos) s0)) = isSelecting s0
  /\ polygonPoints (fst (run (initialize perm pos) s0)) = polygonPoints s0.
Proof.
  run_initialize.
  destruct perm as [status|e]; [|split; reflexivity].
  destruct (status =? "granted")%string; [|split; reflexivity].
  destruct pos as [location|e]; split; reflexivity.
Qed.

Lemma commit_after_press (env : Environment) (prev s : State) :
  commit env (Some prev) s = (s, []).
Proof. reflexivity. Qed.

Lemma press_is_dispatch (env : Environment) (e : UIEvent) (s : State) :
  press env e s = dispatch (onPress e) s.
Proof.
  unfold press. destruct (dispatch (onPress e) s) as [s1 w1].
  rewrite commit_after_press, app_nil_r. reflexivity.
Qed.

Lemma reaches_from_denied (s' : State) :
  reaches deniedState s' -> s' = deniedState \/ s' = initialState.
Proof.
  induction 1 as [|env e s1 _ IH Hoff]; [left; reflexivity|].
  destruct IH as [-> | ->].
  - destruct e; try discriminate Hoff. right. reflexivity.
  - discriminate Hoff.
Qed.

(** C5: when the permission request resolves to anything but granted, the
    mount effect records the denial message and stops after that one request:
    no position is asked for and no region is set (on a fresh component the
    region stays absent), the error screen is rendered, and whatever the user
    then presses, no map is mounted and the point list stays empty. *)
Theorem permission_denied_blocks_selection
    (status : string) (pos : Settled LocationObject) :
  status <> "granted" ->
  mount (mkEnvironment (Fulfilled status) pos)
  = (mkState None [] true false false
             (Some "Permission to access location was denied"),
     [RequestForegroundPermissionsAsync])
  /\ render (fst (mount (mkEnvironment (Fulfilled status) pos)))
     = ErrorScreen (Some "Permission to access location was denied")
  /\ (forall s',
        reaches (fst (mount (mkEnvironment (Fulfilled status) pos))) s' ->
        region s' = None
        /\ polygonPoints s' = []
        /\ mapRef_current s' = false
        /\ (forall event, offered (render s') (MapPress event) = false))
  /\ (forall s0,
        region (fst (run (initialize (Fulfilled status) pos) s0)) = region s0
        /\ errorMsg (fst (run (initialize (Fulfilled status) pos) s0))
           = Some "Permission to access location was denied"
        /\ position_requests
             (snd (run (initialize (Fulfilled status) pos) s0)) = 0%nat).
Proof.
  intros H.
  assert (E : mount (mkEnvironment (Fulfilled status) pos)
              = (deniedState, [RequestForegroundPermissionsAsync])).
  { unfold mount, commit. cbn [permission position].
    rewrite initialize_denied by exact H. reflexivity. }
  rewrite E. cbn [fst].
  split; [reflexivity|]. split; [reflexivity|]. split.
  - intros s' R. apply reaches_from_denied in R.
    destruct R as [-> | ->]; repeat split; reflexivity.
  - intros s0. rewrite initialize_denied by exact H.
    repeat split; reflexivity.
Qed.

(** C6: when the permission is granted and the position request throws, the
    mount effect sets the region to the literal
    {37.78825, -122.4324, 0.015, 0.0121}, records the fetch-failure message,
    clears both loading flags, and the map screen is rendered with that
    region and takes taps; the fallback does not depend on what the cells
    held before. *)
Theorem location_failure_falls_back_to_default (e : JSError) :
  mount (mkEnvironment (Fulfilled "granted") (Rejected e))
  = (mkState (Some (mkRegion 37.78825%float (- 122.4324)%float
                             0.015%float 0.0121%float))
             [] true false false
             (Some "Could not fetch location. Please check your GPS settings."),
     [RequestForegroundPermissionsAsync;
      GetCurrentPositionAsync (mkLocationOptions Highest (Some 10000%Z));
      ConsoleError "Location error:" e])
  /\ render (fst (mount (mkEnvironment (Fulfilled "granted") (Rejected e))))
     = MapScreen (Some (mkRegion 37.78825%float (- 122.4324)%float
                                 0.015%float 0.0121%float))
                 [] true true false
  /\ mapRef_current (fst (mount (mkEnvironment (Fulfilled "granted")
                                               (Rejected e)))) = true
  /\ (forall event,
        offered (render (fst (mount (mkEnvironment (Fulfilled "granted")
                                                   (Rejected e)))))
                (MapPress event) = true)
  /\ (forall s0,
        region (fst (run (initialize (Fulfilled "granted") (Rejected e)) s0))
        = Some (mkRegion 37.78825%float (- 122.4324)%float
                         0.015%float 0.0121%float)
        /\ loading (fst (run (initialize (Fulfilled "granted") (Rejected e)) s0))
           = false).
Proof.
  do 3 (split; [reflexivity|]). split; [intros event; reflexivity|].
  intros s0. rewrite initialize_fetch_failed. split; reflexivity.
Qed.

(** *** Completing the polygon *)

Lemma completePolygon_enough (s : State) :
  (3 <= List.length (polygonPoints s))%nat ->
  dispatch completePolygon s
  = (s, [RouterPush routescreen (JSON_stringify (polygonPoints s))]).
Proof.
  intros H. apply Nat.leb_le in H. run_handler. rewrite H. reflexivity.
Qed.

Lemma completePolygon_too_few (s : State) :
  (List.length (polygonPoints s) < 3)%nat ->
  dispatch completePolygon s = (s, [Alert tooFewMsg]).
Proof.
  intros H. apply Nat.leb_gt in H. run_handler. rewrite H. reflexivity.
Qed.

(** C1: [completePolygon] pushes the route-planning screen, with the
    serialized point list as [polygonData], exactly when there are at least
    three points; with 0, 1 or 2 points it pushes nothing and raises the
    alert.  The number of points is all it looks at: any list of three or
    more coordinates is passed on as it is.  The state is never changed. *)
Theorem completePolygon_navigates_iff_three_points (s : State) :
  fst (dispatch completePolygon s) = s
  /\ (navigations (snd (dispatch completePolygon s)) <> []
      <-> (3 <= List.length (polygonPoints s))%nat)
  /\ ((3 <= List.length (polygonPoints s))%nat ->
      snd (dispatch completePolygon s)
      = [RouterPush "/(tabs)/travel/routescreen"
                    (JSON_stringify (polygonPoints s))])
  /\ ((List.length (polygonPoints s) < 3)%nat ->
      snd (dispatch completePolygon s)
      = [Alert "Please select at least 3 points to form a valid area"]
      /\ navigations (snd (dispatch completePolygon s)) = []
      /\ warnings (snd (dispatch completePolygon s))
         = ["Please select at least 3 points to form a valid area"]).
Proof.
  destruct (Nat.le_gt_cases 3 (List.length (polygonPoints s))) as [Hge | Hlt].
  - rewrite completePolygon_enough by exact Hge. cbn [fst snd].
    split; [reflexivity|]. split; [|split].
    + split; [intros _; exact Hge | intros _; discriminate].
    + reflexivity.
    + intros Hlt. lia.
  - rewrite completePolygon_too_few by exact Hlt. cbn [fst snd].
    split; [reflexivity|]. split; [|split].
    + split; [intros Hnav; exfalso; apply Hnav; reflexivity | intros Hge; lia].
    + intros Hge. lia.
    + intros _. repeat split; reflexivity.
Qed.

Lemma presses_app (env : Environment) (es1 es2 : list UIEvent) (s : State) :
  presses env (es1 ++ es2) s
  = (fst (presses env es2 (fst (presses env es1 s))),
     snd (presses env es1 s) ++ snd (presses env es2 (fst (presses env es1 s)))).
Proof.
  revert s. induction es1 as [|e es1 IH]; intros s; cbn [presses app fst snd].
  - destruct (presses env es2 s); reflexivity.
  - destruct (press env e s) as [s1 w1]. rewrite IH.
    destruct (presses env es1 s1) as [s2 w2]. cbn [fst snd].
    rewrite app_assoc. reflexivity.
Qed.

Lemma presses_map_taps (env : Environment) (cs : list LatLng) :
  forall s,
    presses env (map (fun c => MapPress (pressAt c)) cs) s = (taps cs s, []).
Proof.
  induction cs as [|c cs IH]; intros s; cbn [map presses taps]; [reflexivity|].
  rewrite press_is_dispatch.
  change (dispatch (onPress (MapPress (pressAt c))) s) with (dispatch (tap c) s).
  destruct (isSelecting s) eqn:Hsel.
  - rewrite dispatch_tap_selecting by exact Hsel. cbn [fst].
    rewrite IH. reflexivity.
  - rewrite dispatch_tap_idle by exact Hsel. cbn [fst].
    rewrite IH. reflexivity.
Qed.

(** C3: from a selecting state with no points yet, tapping A, B and C and
    then pressing Complete makes exactly one outside call: the push of the
    route-planning screen whose [polygonData] is the serialization of
    [A; B; C], the three objects in the order they were tapped. *)
Theorem three_taps_then_complete_pushes_in_order
    (env : Environment) (A B C : LatLng) (s : State) :
  polygonPoints s = [] ->
  isSelecting s = true ->
  snd (presses env [MapPress (pressAt A); MapPress (pressAt B);
                    MapPress (pressAt C); CompletePress] s)
  = [RouterPush "/(tabs)/travel/routescreen" (JSON_stringify [A; B; C])]
  /\ JSON_stringify [A; B; C]
     = ("[" ++ stringify_LatLng A ++ "," ++ stringify_LatLng B ++ ","
        ++ stringify_LatLng C ++ "]")%string.
Proof.
  intros Hpts Hsel. split;
    [|unfold JSON_stringify; cbn [map join];
      rewrite !append_assoc; reflexivity].
  change [MapPress (pressAt A); MapPress (pressAt B); MapPress (pressAt C);
          CompletePress]
    with (map (fun c => MapPress (pressAt c)) [A; B; C] ++ [CompletePress]).
  rewrite presses_app, presses_map_taps. cbn [fst snd app presses].
  rewrite press_is_dispatch. cbn [onPress].
  rewrite taps_selecting by exact Hsel. rewrite Hpts. cbn [app].
  reflexivity.
Qed.

(** *** Reachable states *)

(** What every press leaves alone: only the Retry press touches the loading
    flags and the error message, none touches the region, and
    [isSelecting] is kept or set to true. *)
Lemma press_frame (env : Environment) (e : UIEvent) (s : State) :
  (isSelecting (fst (press env e s)) = isSelecting s
   \/ isSelecting (fst (press env e s)) = true)
  /\ region (fst (press env e s)) = region s
  /\ (e <> RetryPress ->
      loading (fst (press env e s)) = loading s
      /\ loadingLocation (fst (press env e s)) = loadingLocation s
      /\ errorMsg (fst (press env e s)) = errorMsg s)
  /\ (e = RetryPress ->
      loading (fst (press env e s)) = true
      /\ polygonPoints (fst (press env e s)) = polygonPoints s).
Proof.
  rewrite press_is_dispatch.
  destruct s as [r pts sel ld ll em].
  destruct e as [event| | | |pos|]; run_handler.
  - destruct sel; cbn; repeat split; auto; discriminate.
  - destruct pts; cbn; repeat split; auto; discriminate.
  - cbn; repeat split; auto; discriminate.
  - destruct (3 <=? List.length pts)%nat; cbn; repeat split; auto; discriminate.
  - destruct r as [reg|]; [destruct pos as [location|err]|];
      cbn; repeat split; auto; discriminate.
  - cbn; repeat split; auto; contradiction.
Qed.

Lemma mount_invariant (env : Environment) : mounted_invariant (fst (mount env)).
Proof.
  destruct env as [perm pos]. unfold mounted_invariant. run_initialize.
  destruct perm as [status|e]; [|cbn; split; [reflexivity | discriminate]].
  destruct (status =? "granted")%string;
    [|cbn; split; [reflexivity | intros _ _; reflexivity]].
  destruct pos as [location|e]; cbn; split; try reflexivity; discriminate.
Qed.

Lemma press_invariant (env : Environment) (e : UIEvent) (s : State) :
  mounted_invariant s -> mounted_invariant (fst (press env e s)).
Proof.
  intros [Hsel Hreg].
  destruct (press_frame env e s) as (Fsel & Freg & Fother & Fretry).
  split.
  - destruct Fsel as [F | F]; [rewrite F; exact Hsel | exact F].
  - destruct e as [event| | | |pos|];
      try (destruct Fother as (Fl & _ & Fe); [discriminate|];
           rewrite Fl, Freg, Fe; exact Hreg).
    destruct Fretry as [Fl _]; [reflexivity|]. rewrite Fl. discriminate.
Qed.

Lemma reachable_invariant (s : State) : reachable s -> mounted_invariant s.
Proof.
  intros [|env s' R].
  - split; [reflexivity | discriminate].
  - induction R as [|env' e s1 _ IH _].
    + apply mount_invariant.
    + apply press_invariant, IH.
Qed.

Lemma map_screen_has_region (s : State) :
  mounted_invariant s -> mapRef_current s = true -> region s <> None.
Proof.
  intros [_ Hreg] Hmap Hnone. unfold mapRef_current, render in Hmap.
  destruct (loading s); [discriminate Hmap|].
  rewrite (Hreg eq_refl Hnone), Hnone in Hmap. discriminate Hmap.
Qed.

(** C10: [isSelecting] starts as true; neither the mount effect nor any
    press ever makes it false; so it is true in every reachable state, where
    a map tap therefore always appends its coordinate and the Complete
    button's condition is just that there are at least three points. *)
Theorem isSelecting_true_in_every_reachable_state :
  isSelecting initialState = true
  /\ (forall perm pos s,
        isSelecting (fst (run (initialize perm pos) s)) = isSelecting s)
  /\ (forall env e s,
        isSelecting (fst (press env e s)) = isSelecting s
        \/ isSelecting (fst (press env e s)) = true)
  /\ (forall s, reachable s -> isSelecting s = true)
  /\ (forall s, reachable s ->
        forall event,
          polygonPoints (fst (dispatch (fun view => handleMapPress view event) s))
          = polygonPoints s ++ [coordinate (nativeEvent event)])
  /\ (forall s, reachable s ->
        readyToComplete s = (3 <=? List.length (polygonPoints s))%nat).
Proof.
  split; [reflexivity|].
  split; [intros perm pos s; apply initialize_keeps_selection|].
  split; [intros env e s; apply press_frame|].
  split; [intros s R; apply (reachable_invariant s R)|].
  split; intros s R; destruct (reachable_invariant s R) as [Hsel _].
  - intros event. destruct s as [r pts sel ld ll em]. cbn in Hsel. subst sel.
    reflexivity.
  - unfold readyToComplete. rewrite Hsel. reflexivity.
Qed.

(** *** Retrying and recentring *)

Lemma nothing_offered_while_loading (s s' : State) :
  loading s = true -> reaches s s' -> s' = s.
Proof.
  intros Hld R. induction R as [|env e s1 _ IH Hoff]; [reflexivity|].
  subst s1. unfold render in Hoff. rewrite Hld in Hoff. discriminate Hoff.
Qed.

(** C4 (what the code does): after a refused permission the error screen
    offers Retry; pressing it clears the message and raises both loading
    flags, but the effect, whose dependency array is empty, does not run
    again: no permission or position request is made, and the component
    stays on the loading screen, which offers no press at all. *)
Theorem retry_press_does_not_rerun_initialize
    (env : Environment) (pos : Settled LocationObject) :
  render (fst (mount (mkEnvironment (Fulfilled "denied") pos)))
  = ErrorScreen (Some "Permission to access location was denied")
  /\ offered (render (fst (mount (mkEnvironment (Fulfilled "denied") pos))))
             RetryPress = true
  /\ permission_requests
       (snd (mount (mkEnvironment (Fulfilled "denied") pos))) = 1%nat
  /\ press env RetryPress (fst (mount (mkEnvironment (Fulfilled "denied") pos)))
     = (mkState None [] true true true None, [])
  /\ permission_requests
       (snd (press env RetryPress
                   (fst (mount (mkEnvironment (Fulfilled "denied") pos)))))
     = 0%nat
  /\ position_requests
       (snd (press env RetryPress
                   (fst (mount (mkEnvironment (Fulfilled "denied") pos)))))
     = 0%nat
  /\ render (fst (press env RetryPress
                        (fst (mount (mkEnvironment (Fulfilled "denied") pos)))))
     = LoadingScreen "Getting your location..."
  /\ (forall s',
        reaches (fst (press env RetryPress
                            (fst (mount (mkEnvironment (Fulfilled "denied")
                                                       pos))))) s' ->
        loading s' = true /\ region s' = None
        /\ forall e, offered (render s') e = false).
Proof.
  do 7 (split; [reflexivity|]).
  intros s' R. apply nothing_offered_while_loading in R; [|reflexivity].
  subst s'. repeat split; reflexivity.
Qed.

(** What [centerOnLocation] does in any state: it never changes a state
    cell; behind its [if (region)] guard it asks for the position at the
    highest accuracy and without a [maximumAge], then animates the mounted
    map to the fetched centre with deltas 0.005 over 1000 ms, or, when the
    request throws, raises the alert and logs the error.  In every reachable
    state that offers the location button there is a region and the map is
    mounted. *)
Lemma centerOnLocation_cases :
  (forall s pos,
     fst (dispatch (fun view => centerOnLocation view pos) s) = s)
  /\ (forall s pos,
        region s = None ->
        snd (dispatch (fun view => centerOnLocation view pos) s) = [])
  /\ (forall s location,
        region s <> None ->
        snd (dispatch (fun view => centerOnLocation view (Fulfilled location)) s)
        = GetCurrentPositionAsync (mkLocationOptions Highest None)
          :: (if mapRef_current s
              then [AnimateToRegion
                      (mkRegion (coords_latitude (coords location))
                                (coords_longitude (coords location))
                                0.005%float 0.005%float)
                      1000]
              else []))
  /\ (forall s e,
        region s <> None ->
        snd (dispatch (fun view => centerOnLocation view (Rejected e)) s)
        = [GetCurrentPositionAsync (mkLocationOptions Highest None);
           Alert "Could not get current location";
           ConsoleError "Location error:" e])
  /\ (forall s pos,
        reachable s ->
        offered (render s) (LocatePress pos) = true ->
        region s <> None /\ mapRef_current s = true).
Proof.
  split; [|split; [|split; [|split]]].
  - intros s pos. destruct s as [r pts sel ld ll em]. run_handler.
    destruct r as [reg|]; [destruct pos as [location|err]|]; reflexivity.
  - intros s pos Hnone. run_handler. rewrite Hnone. reflexivity.
  - intros s location Hsome. run_handler.
    destruct (region s) as [reg|]; [reflexivity | contradiction].
  - intros s e Hsome. run_handler.
    destruct (region s) as [reg|]; [reflexivity | contradiction].
  - intros s pos R Hoff.
    assert (Hmap : mapRef_current s = true).
    { unfold mapRef_current. destruct (render s); try discriminate Hoff.
      reflexivity. }
    split; [|exact Hmap].
    apply map_screen_has_region; [apply reachable_invariant, R | exact Hmap].
Qed.

(** C9: a press of the location button, in any reachable state that offers
    it, asks for the current position at the highest accuracy and with no
    [maximumAge], exactly once; when the position arrives the map is animated
    to it (deltas 0.005) over 1000 ms, and when the request throws the alert
    is raised and the error logged instead; either way every state cell
    (region, points, isSelecting, both loading flags, errorMsg) is left as
    it was. *)
Theorem recenter_press_fetches_animates_and_keeps_state
    (env : Environment) (s : State) (pos : Settled LocationObject) :
  reachable s ->
  offered (render s) (LocatePress pos) = true ->
  fst (press env (LocatePress pos) s) = s
  /\ position_requests (snd (press env (LocatePress pos) s)) = 1%nat
  /\ (forall location,
        pos = Fulfilled location ->
        snd (press env (LocatePress pos) s)
        = [GetCurrentPositionAsync (mkLocationOptions Highest None);
           AnimateToRegion
             (mkRegion (coords_latitude (coords location))
                       (coords_longitude (coords location))
                       0.005%float 0.005%float)
             1000])
  /\ (forall e,
        pos = Rejected e ->
        snd (press env (LocatePress pos) s)
        = [GetCurrentPositionAsync (mkLocationOptions Highest None);
           Alert "Could not get current location";
           ConsoleError "Location error:" e]
        /\ warnings (snd (press env (LocatePress pos) s))
           = ["Could not get current location"]).
Proof.
  intros R Hoff.
  destruct centerOnLocation_cases as (Hframe & _ & Hok & Hfail & Hshown).
  destruct (Hshown s pos R Hoff) as [Hreg Hmap].
  rewrite press_is_dispatch.
  change (dispatch (onPress (LocatePress pos)) s)
    with (dispatch (fun view => centerOnLocation view pos) s).
  split; [apply Hframe|].
  destruct pos as [location|e].
  - rewrite (Hok s location Hreg), Hmap.
    split; [reflexivity|]. split.
    + intros location' [= <-]. reflexivity.
    + intros e H. discriminate H.
  - rewrite (Hfail s e Hreg).
    split; [reflexivity|]. split.
    + intros location H. discriminate H.
    + intros e' [= <-]. split; reflexivity.
Qed.

(** *** The mount effect, all outcomes *)

(** X1: with the permission granted and the position delivered, the mount
    effect centres the region on the delivered coordinates with both deltas
    0.005, records no error, asks for the position once (highest accuracy,
    [maximumAge] 10000) and the map screen is rendered with that region. *)
Theorem mount_with_position_centres_region (location : LocationObject) :
  mount (mkEnvironment (Fulfilled "granted") (Fulfilled location))
  = (mkState (Some (mkRegion (coords_latitude (coords location))
                             (coords_longitude (coords location))
                             0.005%float 0.005%float))
             [] true false false None,
     [RequestForegroundPermissionsAsync;
      GetCurrentPositionAsync (mkLocationOptions Highest (Some 10000%Z))])
  /\ render (fst (mount (mkEnvironment (Fulfilled "granted")
                                       (Fulfilled location))))
     = MapScreen (Some (mkRegion (coords_latitude (coords location))
                                 (coords_longitude (coords location))
                                 0.005%float 0.005%float))
                 [] true true false.
Proof. split; reflexivity. Qed.

(** X2: when the permission request itself throws, the same [catch] branch
    runs as for a failed position fetch: the position is never asked for, the
    region falls back to the default literal, the message kept is the
    fetch-failure one, and the map screen is rendered. *)
Theorem mount_permission_request_throws
    (e : JSError) (pos : Settled LocationObject) :
  mount (mkEnvironment (Rejected e) pos)
  = (mkState (Some defaultRegion) [] true false false
             (Some "Could not fetch location. Please check your GPS settings."),
     [RequestForegroundPermissionsAsync; ConsoleError "Location error:" e])
  /\ position_requests (snd (mount (mkEnvironment (Rejected e) pos))) = 0%nat
  /\ mapRef_current (fst (mount (mkEnvironment (Rejected e) pos))) = true.
Proof. repeat split; reflexivity. Qed.

Lemma mount_cases (env : Environment) :
  (exists status pos,
     env = mkEnvironment (Fulfilled status) pos
     /\ status <> "granted"
     /\ mount env = (deniedState, [RequestForegroundPermissionsAsync]))
  \/ (exists location,
        env = mkEnvironment (Fulfilled "granted") (Fulfilled location)
        /\ mount env
           = (mkState (Some (mkRegion (coords_latitude (coords location))
                                      (coords_longitude (coords location))
                                      0.005%float 0.005%float))
                      [] true false false None,
              [RequestForegroundPermissionsAsync;
               GetCurrentPositionAsync
                 (mkLocationOptions Highest (Some 10000%Z))]))
  \/ (exists e,
        env = mkEnvironment (Fulfilled "granted") (Rejected e)
        /\ mount env
           = (mkState (Some defaultRegion) [] true false false
                      (Some fetchFailedMsg),
              [RequestForegroundPermissionsAsync;
               GetCurrentPositionAsync
                 (mkLocationOptions Highest (Some 10000%Z));
               ConsoleError "Location error:" e]))
  \/ (exists e pos,
        env = mkEnvironment (Rejected e) pos
        /\ mount env
           = (mkState (Some defaultRegion) [] true false false
                      (Some fetchFailedMsg),
              [RequestForegroundPermissionsAsync;
               ConsoleError "Location error:" e])).
Proof.
  destruct env as [[status|e] pos].
  - destruct (String.eqb_spec status "granted") as [-> | Hne].
    + destruct pos as [location|e].
      * right; left. exists location. split; reflexivity.
      * right; right; left. exists e. split; reflexivity.
    + left. exists status, pos. split; [reflexivity|]. split; [exact Hne|].
      unfold mount, commit. cbn [permission position].
      rewrite initialize_denied by exact Hne. reflexivity.
  - right; right; right. exists e, pos. split; reflexivity.
Qed.

(** X3: however the two requests settle, the mount effect ends with both
    loading flags cleared, no point and selection on; it asks for the
    permission exactly once, and for the position exactly once when the
    permission resolved to granted and never otherwise. *)
Theorem mount_always_settles (env : Environment) :
  loading (fst (mount env)) = false
  /\ loadingLocation (fst (mount env)) = false
  /\ polygonPoints (fst (mount env)) = []
  /\ isSelecting (fst (mount env)) = true
  /\ permission_requests (snd (mount env)) = 1%nat
  /\ (permission env = Fulfilled "granted" ->
      position_requests (snd (mount env)) = 1%nat)
  /\ (permission env <> Fulfilled "granted" ->
      position_requests (snd (mount env)) = 0%nat).
Proof.
  destruct (mount_cases env)
    as [(status & pos & -> & Hne & ->)
       | [(location & -> & ->) | [(e & -> & ->) | (e & pos & -> & ->)]]];
    cbn [permission]; repeat split; try reflexivity;
    try (intros Hp; exfalso; apply Hp; reflexivity);
    try discriminate.
  intros [= Hs]. contradiction.
Qed.

(** X4: after the mount effect the loading screen is gone; the error screen
    is what is rendered exactly when the permission resolved to a status
    other than granted, and in every other case the map is mounted with a
    region. *)
Theorem mount_screen_by_permission (env : Environment) :
  (forall text, render (fst (mount env)) <> LoadingScreen text)
  /\ ((exists status,
         permission env = Fulfilled status /\ status <> "granted")
      <-> render (fst (mount env)) = ErrorScreen (Some deniedMsg))
  /\ ((forall status,
         permission env = Fulfilled status -> status = "granted")
      <-> (mapRef_current (fst (mount env)) = true
           /\ region (fst (mount env)) <> None)).
Proof.
  destruct (mount_cases env)
    as [(status & pos & -> & Hne & ->)
       | [(location & -> & ->) | [(e & -> & ->) | (e & pos & -> & ->)]]];
    cbn [permission fst].
  - split; [intros text; discriminate|]. split.
    + split; [reflexivity | intros _; exists status; split; auto].
    + split.
      * intros H. exfalso. apply Hne, H. reflexivity.
      * intros [H _]. discriminate H.
  - split; [intros text; discriminate|]. split.
    + split; [intros (status & [= <-] & Hne); contradiction | discriminate].
    + split; [intros _; split; [reflexivity | discriminate]|].
      intros _ status [= <-]. reflexivity.
  - split; [intros text; discriminate|]. split.
    + split; [intros (status & [= <-] & Hne); contradiction | discriminate].
    + split; [intros _; split; [reflexivity | discriminate]|].
      intros _ status [= <-]. reflexivity.
  - split; [intros text; discriminate|]. split.
    + split; [intros (status & H & _); discriminate H | discriminate].
    + split; [intros _; split; [reflexivity | discriminate]|].
      intros _ status H. discriminate H.
Qed.

(** *** Runs of presses *)

Lemma press_undo (env : Environment) (s : State) :
  press env UndoPress s
  = (mkState (region s) (removelast (polygonPoints s)) (isSelecting s)
             (loading s) (loadingLocation s) (errorMsg s), []).
Proof.
  rewrite press_is_dispatch. destruct s as [r pts sel ld ll em].
  run_handler. destruct pts as [|p pts]; [reflexivity|].
  cbn [List.length Nat.ltb Nat.leb]. rewrite slice_drop_last. reflexivity.
Qed.

Lemma press_tap (env : Environment) (c : LatLng) (s : State) :
  isSelecting s = true ->
  press env (MapPress (pressAt c)) s
  = (mkState (region s) (polygonPoints s ++ [c]) true (loading s)
             (loadingLocation s) (errorMsg s), []).
Proof.
  intros H. rewrite press_is_dispatch.
  change (dispatch (onPress (MapPress (pressAt c))) s) with (dispatch (tap c) s).
  apply dispatch_tap_selecting, H.
Qed.

Lemma undo_presses (env : Environment) (n : nat) :
  forall s,
    presses env (repeat UndoPress n) s
    = (mkState (region s)
               (firstn (List.length (polygonPoints s) - n) (polygonPoints s))
               (isSelecting s) (loading s) (loadingLocation s) (errorMsg s),
       []).
Proof.
  induction n as [|n IH]; intros s; cbn [repeat presses].
  - rewrite Nat.sub_0_r, firstn_all, state_eta. reflexivity.
  - rewrite press_undo, IH.
    cbn [region polygonPoints isSelecting loading loadingLocation errorMsg app].
    rewrite removelast_firstn_len, firstn_firstn, length_firstn.
    do 2 f_equal. f_equal. lia.
Qed.

(** X5: tapping a point and then pressing Undo brings every state cell back
    to what it was, and neither press makes an outside call. *)
Theorem tap_then_undo_restores_state
    (env : Environment) (c : LatLng) (s : State) :
  isSelecting s = true ->
  presses env [MapPress (pressAt c); UndoPress] s = (s, []).
Proof.
  intros H. cbn [presses]. rewrite press_tap by exact H. rewrite press_undo.
  cbn [region polygonPoints isSelecting loading loadingLocation errorMsg app].
  rewrite removelast_last, <- H, state_eta. reflexivity.
Qed.

(** X6: n presses of Undo keep the first (length - n) points in their order
    and drop the rest; once the list is empty further presses change
    nothing; no other cell is touched and no outside call is made. *)
Theorem undo_presses_keep_prefix (env : Environment) (n : nat) (s : State) :
  polygonPoints (fst (presses env (repeat UndoPress n) s))
  = firstn (List.length (polygonPoints s) - n) (polygonPoints s)
  /\ (List.length (polygonPoints s) <= n ->
      polygonPoints (fst (presses env (repeat UndoPress n) s)) = [])
  /\ region (fst (presses env (repeat UndoPress n) s)) = region s
  /\ isSelecting (fst (presses env (repeat UndoPress n) s)) = isSelecting s
  /\ loading (fst (presses env (repeat UndoPress n) s)) = loading s
  /\ loadingLocation (fst (presses env (repeat UndoPress n) s))
     = loadingLocation s
  /\ errorMsg (fst (presses env (repeat UndoPress n) s)) = errorMsg s
  /\ snd (presses env (repeat UndoPress n) s) = [].
Proof.
  rewrite undo_presses.
  cbn [fst snd region polygonPoints isSelecting loading loadingLocation
       errorMsg].
  split; [reflexivity|]. split; [|repeat split; reflexivity].
  intros Hle. replace (List.length (polygonPoints s) - n)%nat with 0%nat by lia.
  reflexivity.
Qed.

(** X7: while selection is on, Reset leaves the component in the same state
    as pressing Undo once for every point. *)
Theorem reset_is_undo_of_every_point (env : Environment) (s : State) :
  isSelecting s = true ->
  fst (press env ResetPress s)
  = fst (presses env (repeat UndoPress (List.length (polygonPoints s))) s).
Proof.
  intros H. rewrite undo_presses, press_is_dispatch, Nat.sub_diag.
  destruct s as [r pts sel ld ll em]. cbn in H. subst sel. reflexivity.
Qed.

Lemma presses_region (env : Environment) (es : list UIEvent) :
  forall s, region (fst (presses env es s)) = region s.
Proof.
  induction es as [|e es IH]; intros s; cbn [presses]; [reflexivity|].
  destruct (press env e s) as [s1 w1] eqn:E.
  specialize (IH s1). destruct (presses env es s1) as [s2 w2].
  cbn [fst] in *. rewrite IH.
  replace s1 with (fst (press env e s)) by (rewrite E; reflexivity).
  apply press_frame.
Qed.

(** X8: no run of presses ever changes the [region] cell: it keeps the value
    the mount effect gave it, also after a successful recentring, which only
    animates the map. *)
Theorem presses_never_change_region
    (env : Environment) (es : list UIEvent) (s : State) :
  region (fst (presses env es s)) = region s
  /\ (forall location,
        region (fst (press env (LocatePress (Fulfilled location)) s))
        = region s).
Proof.
  split; [apply presses_region|].
  intros location. apply press_frame.
Qed.

Lemma map_stays_mounted (s0 s' : State) :
  loading s0 = false ->
  region s0 <> None ->
  reaches s0 s' ->
  loading s' = false
  /\ region s' = region s0
  /\ errorMsg s' = errorMsg s0
  /\ mapRef_current s' = true.
Proof.
  intros Hld Hreg R.
  assert (Hmap : forall s, loading s = false -> region s = region s0 ->
                           mapRef_current s = true).
  { intros s Hl Hr. unfold mapRef_current, render. rewrite Hl, Hr.
    destruct (region s0); [|contradiction].
    cbn [truthy_object negb]. rewrite andb_false_r. reflexivity. }
  induction R as [|env e s1 _ IH Hoff].
  - repeat split; auto.
  - destruct IH as (Hl1 & Hr1 & He1 & Hm1).
    destruct (press_frame env e s1) as (_ & Freg & Fother & _).
    assert (Hne : e <> RetryPress).
    { intros ->. unfold mapRef_current in Hm1.
      destruct (render s1); discriminate. }
    destruct (Fother Hne) as (Fl & _ & Fe).
    assert (Hl : loading (fst (press env e s1)) = false)
      by (rewrite Fl; exact Hl1).
    assert (Hr : region (fst (press env e s1)) = region s0)
      by (rewrite Freg; exact Hr1).
    split; [exact Hl|]. split; [exact Hr|].
    split; [rewrite Fe; exact He1 | apply Hmap; assumption].
Qed.

(** X9: once the mount effect has produced a region, the map stays mounted
    whatever the user presses: the error screen, which is the only place
    where [errorMsg] is printed, is never rendered, so the message recorded
    by the fallback to the default region is kept but never shown. *)
Theorem map_screen_is_never_left (env : Environment) (s' : State) :
  region (fst (mount env)) <> None ->
  reaches (fst (mount env)) s' ->
  mapRef_current s' = true
  /\ (forall text, render s' <> ErrorScreen text)
  /\ (forall text, render s' <> LoadingScreen text)
  /\ region s' = region (fst (mount env))
  /\ errorMsg s' = errorMsg (fst (mount env)).
Proof.
  intros Hreg R.
  assert (Hld : loading (fst (mount env)) = false).
  { destruct (mount_cases env)
      as [(status & pos & -> & Hne & ->)
         | [(location & -> & ->) | [(e & -> & ->) | (e & pos & -> & ->)]]];
      reflexivity. }
  destruct (map_stays_mounted _ _ Hld Hreg R) as (_ & Hr & He & Hm).
  split; [exact Hm|].
  unfold mapRef_current in Hm.
  split; [|split; [|split; [exact Hr | exact He]]];
    intros text Hrender; rewrite Hrender in Hm; discriminate Hm.
Qed.

Lemma offered_complete_enough (s : State) :
  offered (render s) CompletePress = true ->
  (3 <=? List.length (polygonPoints s))%nat = true.
Proof.
  unfold render. destruct (loading s); [discriminate|].
  destruct (truthy_string (errorMsg s) && negb (truthy_object (region s)));
    [discriminate|].
  cbn [offered]. unfold readyToComplete. intros H.
  apply andb_true_iff in H. apply H.
Qed.

(** X10: through the screen the too-few-points alert cannot be raised: the
    Complete button is rendered only with three or more points, so a
    delivered Complete press always pushes the route screen, and no other
    offered press produces that alert. *)
Theorem too_few_points_alert_is_unreachable
    (env : Environment) (e : UIEvent) (s : State) :
  offered (render s) e = true ->
  ~ In (Alert "Please select at least 3 points to form a valid area")
       (snd (press env e s))
  /\ (e = CompletePress ->
      press env e s
      = (s, [RouterPush "/(tabs)/travel/routescreen"
                        (JSON_stringify (polygonPoints s))])).
Proof.
  intros Hoff. rewrite press_is_dispatch.
  destruct e as [event| | | |pos|].
  - split; [|discriminate]. run_handler.
    destruct (isSelecting s); cbn; tauto.
  - split; [|discriminate]. run_handler.
    destruct (0 <? List.length (polygonPoints s))%nat; cbn; tauto.
  - split; [|discriminate]. cbn. tauto.
  - apply offered_complete_enough in Hoff. run_handler. rewrite Hoff.
    cbn [fst snd]. split; [|intros _; reflexivity].
    intros [H | []]. discriminate H.
  - split; [|discriminate]. run_handler.
    destruct (truthy_object (region s)); [|cbn; tauto].
    destruct pos as [location|err]; cbn [fst snd app].
    + destruct (mapRef_current s); cbn;
        intros H; repeat (destruct H as [H | H]; try discriminate H);
        exact H.
    + cbn. intros H; repeat (destruct H as [H | H]; try discriminate H);
        exact H.
  - split; [|discriminate]. cbn. tauto.
Qed.

(** X11: when the Undo button is enabled, a press of it removes exactly one
    point. *)
Theorem undo_when_offered_removes_one_point (env : Environment) (s : State) :
  offered (render s) UndoPress = true ->
  S (List.length (polygonPoints (fst (press env UndoPress s))))
  = List.length (polygonPoints s).
Proof.
  intros Hoff. rewrite press_undo. cbn [fst polygonPoints].
  assert (Hne : polygonPoints s <> []).
  { intros Hnil. unfold render in Hoff. rewrite Hnil in Hoff.
    destruct (loading s); [discriminate|].
    destruct (truthy_string (errorMsg s) && negb (truthy_object (region s)));
      discriminate. }
  destruct (exists_last Hne) as (front & last & ->).
  rewrite removelast_last, length_app. cbn [List.length]. lia.
Qed.

Lemma permission_requests_app (w1 w2 : list Effect) :
  permission_requests (w1 ++ w2)
  = (permission_requests w1 + permission_requests w2)%nat.
Proof. unfold permission_requests. rewrite filter_app, length_app. reflexivity. Qed.

Lemma position_requests_app (w1 w2 : list Effect) :
  position_requests (w1 ++ w2)
  = (position_requests w1 + position_requests w2)%nat.
Proof. unfold position_requests. rewrite filter_app, length_app. reflexivity. Qed.

Lemma navigations_app (w1 w2 : list Effect) :
  navigations (w1 ++ w2) = navigations w1 ++ navigations w2.
Proof. unfold navigations. apply flat_map_app. Qed.

Lemma press_calls (env : Environment) (e : UIEvent) (s : State) :
  permission_requests (snd (press env e s)) = 0%nat
  /\ (position_requests (snd (press env e s))
      <= if is_locate_press e then 1 else 0)%nat
  /\ (List.length (navigations (snd (press env e s)))
      <= if is_complete_press e then 1 else 0)%nat.
Proof.
  rewrite press_is_dispatch. destruct s as [r pts sel ld ll em].
  destruct e as [event| | | |pos|]; run_handler.
  - destruct sel; cbn; repeat split; lia.
  - destruct pts; cbn; repeat split; lia.
  - cbn; repeat split; lia.
  - destruct (3 <=? List.length pts)%nat; cbn; repeat split; lia.
  - destruct r as [reg|]; [destruct pos as [location|err]|];
      cbn [truthy_object fst snd app]; try (cbn; repeat split; lia).
    destruct (mapRef_current _); cbn; repeat split; lia.
  - cbn; repeat split; lia.
Qed.

(** X12: over any run of presses the permission is never requested again
    (the mount effect does not re-run), the position is requested at most
    once per press of the location button, and the route screen is pushed at
    most once per press of Complete. *)
Theorem presses_call_budget (env : Environment) (es : list UIEvent) (s : State) :
  permission_requests (snd (presses env es s)) = 0%nat
  /\ (position_requests (snd (presses env es s))
      <= count_presses is_locate_press es)%nat
  /\ (List.length (navigations (snd (presses env es s)))
      <= count_presses is_complete_press es)%nat.
Proof.
  revert s. induction es as [|e es IH]; intros s; cbn [presses].
  - cbn. repeat split; lia.
  - destruct (press_calls env e s) as (P1 & P2 & P3).
    destruct (press env e s) as [s1 w1]. cbn [snd] in P1, P2, P3.
    destruct (IH s1) as (Q1 & Q2 & Q3).
    destruct (presses env es s1) as [s2 w2]. cbn [snd] in *.
    rewrite permission_requests_app, position_requests_app, navigations_app,
      length_app.
    unfold count_presses in *. cbn [filter].
    split; [lia|].
    destruct (is_locate_press e), (is_complete_press e);
      cbn [List.length]; split; lia.
Qed.

(** X13: whenever the component is at rest (first render, after the mount
    effect, after any press) the two loading flags are equal, so the only
    text the loading screen shows at rest is the location one. *)
Theorem loading_flags_agree_at_rest (s : State) :
  reachable s ->
  loading s = loadingLocation s
  /\ (forall text,
        render s = LoadingScreen text -> text = "Getting your location...").
Proof.
  intros R.
  assert (H : loading s = loadingLocation s).
  { destruct R as [|env s R]; [reflexivity|].
    induction R as [|env' e s1 _ IH _].
    - destruct (mount_cases env)
        as [(status & pos & -> & Hne & ->)
           | [(location & -> & ->) | [(e & -> & ->) | (e & pos & -> & ->)]]];
        reflexivity.
    - destruct (press_frame env' e s1) as (_ & _ & Fother & _).
      destruct e as [event| | | |pos|];
        try (destruct Fother as (Fl & Fll & _); [discriminate|];
             rewrite Fl, Fll; exact IH).
      reflexivity. }
  split; [exact H|].
  intros text. unfold render. rewrite <- H.
  destruct (loading s).
  - intros [= <-]. reflexivity.
  - destruct (truthy_string (errorMsg s) && negb (truthy_object (region s)));
      discriminate.
Qed.

(** *** Map overlays *)

Lemma map_indexed_from_length {A B} (f : A -> nat -> B) (l : list A) :
  forall i, List.length (map_indexed_from f i l) = List.length l.
Proof.
  induction l as [|x l IH]; intros i; cbn [map_indexed_from List.length];
    [reflexivity|].
  rewrite IH. reflexivity.
Qed.

Lemma map_indexed_from_nth {A B} (f : A -> nat -> B) (l : list A) :
  forall i k x,
    nth_error l k = Some x ->
    nth_error (map_indexed_from f i l) k = Some (f x (i + k)%nat).
Proof.
  induction l as [|y l IH]; intros i k x H.
  - destruct k; discriminate H.
  - destruct k as [|k]; cbn [map_indexed_from nth_error] in *.
    + injection H as ->. rewrite Nat.add_0_r. reflexivity.
    + rewrite (IH (S i) k x H). do 2 f_equal. lia.
Qed.

Lemma map_indexed_from_snoc {A B} (f : A -> nat -> B) (l : list A) (x : A) :
  forall i,
    map_indexed_from f i (l ++ [x])
    = map_indexed_from f i l ++ [f x (i + List.length l)%nat].
Proof.
  induction l as [|y l IH]; intros i; cbn [map_indexed_from app List.length].
  - rewrite Nat.add_0_r. reflexivity.
  - rewrite IH.
    replace (S i + List.length l)%nat with (i + S (List.length l))%nat by lia.
    reflexivity.
Qed.

Lemma map_indexed_from_keys {A B C} (f : A -> nat -> B) (key : B -> C)
      (k : nat -> C) (l : list A) :
  (forall x index, key (f x index) = k index) ->
  forall i, map key (map_indexed_from f i l) = map k (seq i (List.length l)).
Proof.
  intros Hkey. induction l as [|x l IH]; intros i;
    cbn [map_indexed_from map seq List.length]; [reflexivity|].
  rewrite Hkey, IH. reflexivity.
Qed.

Lemma markers_from_coordinates (l : list LatLng) :
  forall i,
    map marker_coordinate
        (map_indexed_from
           (fun point index => mkMarker index point (index + 1)) i l)
    = l.
Proof.
  induction l as [|p l IH]; intros i; cbn [map_indexed_from map];
    [reflexivity|].
  rewrite IH. reflexivity.
Qed.

(** X14: there is one marker per point, in tap order; the k-th marker (from
    0) sits on the k-th point, has key k and shows the number k + 1, so the
    numbers on screen run 1, 2, ..., n. *)
Theorem markers_number_points_in_order (s : State) :
  List.length (markers s) = List.length (polygonPoints s)
  /\ (forall k p,
        nth_error (polygonPoints s) k = Some p ->
        nth_error (markers s) k = Some (mkMarker k p (k + 1)))
  /\ map marker_coordinate (markers s) = polygonPoints s
  /\ map marker_text (markers s) = seq 1 (List.length (polygonPoints s))
  /\ map marker_key (markers s) = seq 0 (List.length (polygonPoints s)).
Proof.
  unfold markers, map_indexed.
  split; [apply map_indexed_from_length|].
  split.
  { intros k p H.
    exact (map_indexed_from_nth
             (fun point index => mkMarker index point (index + 1))
             _ 0 k p H). }
  split; [|split].
  - apply markers_from_coordinates.
  - rewrite (map_indexed_from_keys _ marker_text (fun index => index + 1)%nat)
      by reflexivity.
    rewrite <- seq_shift. apply map_ext. intros index. lia.
  - rewrite (map_indexed_from_keys _ marker_key (fun index => index))
      by reflexivity.
    apply map_id.
Qed.

(** X15: while selection is on, a tap leaves every marker as it is and adds
    one marker at the tapped coordinate carrying the next number. *)
Theorem tap_adds_next_marker (env : Environment) (c : LatLng) (s : State) :
  isSelecting s = true ->
  markers (fst (press env (MapPress (pressAt c)) s))
  = markers s
    ++ [mkMarker (List.length (polygonPoints s)) c
                 (List.length (polygonPoints s) + 1)].
Proof.
  intros H. rewrite press_tap by exact H. unfold markers, map_indexed.
  cbn [fst polygonPoints].
  exact (map_indexed_from_snoc
           (fun point index => mkMarker index point (index + 1))
           (polygonPoints s) c 0).
Qed.

Lemma connection_lines_from (all : list LatLng) (l : list LatLng) :
  forall i,
    (forall j, nth_error all (i + j) = nth_error l j) ->
    List.length all = (i + List.length l)%nat ->
    drawn (map_indexed_from (connectionLine all) i l)
    = map_indexed_from neighbour_line i (combine l (tl l)).
Proof.
  induction l as [|x l IH]; intros i Hnth Hlen; [reflexivity|].
  cbn [map_indexed_from]. unfold connectionLine at 1.
  destruct l as [|y r].
  - cbn [List.length] in Hlen.
    replace (Z.of_nat i =? Z.of_nat (List.length all) - 1)%Z with true
      by (symmetry; apply Z.eqb_eq; lia).
    reflexivity.
  - cbn [List.length] in Hlen.
    replace (Z.of_nat i =? Z.of_nat (List.length all) - 1)%Z with false
      by (symmetry; apply Z.eqb_neq; lia).
    rewrite (Hnth 1%nat). cbn [nth_error].
    cbn [drawn flat_map app combine tl map_indexed_from].
    unfold neighbour_line at 1. cbn [fst snd]. f_equal.
    apply (IH (S i)).
    + intros j. replace (S i + j)%nat with (i + S j)%nat by lia.
      rewrite Hnth. reflexivity.
    + cbn [List.length]. lia.
Qed.

Lemma drawnLines_neighbours (s : State) :
  drawnLines s
  = map_indexed neighbour_line
                (combine (polygonPoints s) (tl (polygonPoints s))).
Proof.
  unfold drawnLines, connectionLines.
  destruct (polygonPoints s) as [|x [|y r]] eqn:E; [reflexivity..|].
  cbn [List.length Nat.ltb Nat.leb]. rewrite <- E.
  unfold map_indexed.
  apply connection_lines_from; [intros j; reflexivity | reflexivity].
Qed.

(** X16: with fewer than two points no line is drawn; with n >= 2 points the
    lines drawn are exactly the n - 1 joining each point to the next one in
    tap order, every one with both ends defined, and the last child of the
    list is null: no line goes from the last point back to the first. *)
Theorem connection_lines_join_neighbours (s : State) :
  (List.length (polygonPoints s) <= 1 -> connectionLines s = [])%nat
  /\ (2 <= List.length (polygonPoints s) ->
      List.length (connectionLines s) = List.length (polygonPoints s)
      /\ nth_error (connectionLines s) (List.length (polygonPoints s) - 1)
         = Some None)%nat
  /\ map (fun line => (line_from line, line_to line)) (drawnLines s)
     = map (fun ends => (fst ends, Some (snd ends)))
           (combine (polygonPoints s) (tl (polygonPoints s)))
  /\ List.length (drawnLines s) = (List.length (polygonPoints s) - 1)%nat
  /\ (forall line, In line (drawnLines s) -> line_to line <> None).
Proof.
  split; [|split; [|split; [|split]]].
  - intros Hle. unfold connectionLines.
    replace (1 <? List.length (polygonPoints s))%nat with false
      by (symmetry; apply Nat.ltb_ge; lia).
    reflexivity.
  - intros Hge. unfold connectionLines.
    replace (1 <? List.length (polygonPoints s))%nat with true
      by (symmetry; apply Nat.ltb_lt; lia).
    unfold map_indexed. split; [apply map_indexed_from_length|].
    destruct (nth_error (polygonPoints s) (List.length (polygonPoints s) - 1))
      as [p|] eqn:E.
    + rewrite (map_indexed_from_nth _ _ 0 _ p E). unfold connectionLine.
      replace (Z.of_nat (0 + (List.length (polygonPoints s) - 1))
               =? Z.of_nat (List.length (polygonPoints s)) - 1)%Z with true
        by (symmetry; apply Z.eqb_eq; lia).
      reflexivity.
    + apply nth_error_None in E. lia.
  - rewrite drawnLines_neighbours. unfold map_indexed.
    generalize 0%nat.
    induction (combine (polygonPoints s) (tl (polygonPoints s)))
      as [|ends l IH]; intros i; cbn [map_indexed_from map]; [reflexivity|].
    rewrite IH. reflexivity.
  - rewrite drawnLines_neighbours. unfold map_indexed.
    rewrite map_indexed_from_length, length_combine.
    destruct (polygonPoints s) as [|x l]; cbn [List.length tl]; lia.
  - intros line Hin. rewrite drawnLines_neighbours in Hin.
    unfold map_indexed in Hin. revert Hin. generalize 0%nat.
    induction (combine (polygonPoints s) (tl (polygonPoints s)))
      as [|ends l IH]; intros i Hin; cbn [map_indexed_from In] in Hin;
      [contradiction|].
    destruct Hin as [<- | Hin]; [discriminate | exact (IH _ Hin)].
Qed.

Lemma index_text_inj (a b : nat) : index_text a = index_text b -> a = b.
Proof.
  unfold index_text. intros H. apply DecimalNat.Unsigned.to_uint_inj.
  assert (E : Some (Nat.to_uint a) = Some (Nat.to_uint b)).
  { rewrite <- (NilEmpty.usu (Nat.to_uint a)), <- (NilEmpty.usu (Nat.to_uint b)).
    rewrite H. reflexivity. }
  injection E as E. exact E.
Qed.

Lemma NoDup_map_injective {A B} (f : A -> B) (l : list A) :
  (forall a b, f a = f b -> a = b) -> NoDup l -> NoDup (map f l).
Proof.
  intros Hinj Hnd. induction Hnd as [|x l Hnotin _ IH]; cbn [map];
    constructor; [|exact IH].
  intros Hin. apply in_map_iff in Hin. destruct Hin as (y & Hy & Hin).
  apply Hinj in Hy. subst y. contradiction.
Qed.

(** X17: the React keys of sibling overlays never collide: the markers have
    pairwise different keys, and so have the lines that are drawn. *)
Theorem overlay_keys_are_distinct (s : State) :
  NoDup (map marker_key (markers s))
  /\ NoDup (map line_key (drawnLines s)).
Proof.
  split.
  - unfold markers, map_indexed.
    rewrite (map_indexed_from_keys _ marker_key (fun index => index))
      by reflexivity.
    rewrite map_id. apply seq_NoDup.
  - rewrite drawnLines_neighbours. unfold map_indexed.
    rewrite (map_indexed_from_keys
               _ line_key (fun index => ("line-" ++ index_text index)%string))
      by reflexivity.
    apply NoDup_map_injective; [|apply seq_NoDup].
    intros a b H. cbn [append] in H. injection H as H.
    apply index_text_inj, H.
Qed.

End Travel.

(** ** Concrete runs *)

(** The same coordinate tapped twice is kept twice. *)
Lemma handleMapPress_appends_every_tap_witness :
  polygonPoints (taps [pointA; pointA] (fst (mount grantedEnv)))
  = [pointA; pointA].
Proof.
  exact (proj1 (proj1 (handleMapPress_appends_every_tap
                         (fst (mount grantedEnv))) eq_refl
                      [pointA; pointA])).
Defined.

Lemma undoLastPoint_removes_last_witness :
  polygonPoints
    (fst (dispatch undoLastPoint (taps [pointA; pointB] (fst (mount grantedEnv)))))
  = [pointA].
Proof.
  exact (proj1 (undoLastPoint_removes_last
                  (taps [pointA; pointB] (fst (mount grantedEnv))))
               [pointA] pointB eq_refl).
Defined.

Lemma three_taps_then_complete_witness :
  snd (presses print_zero grantedEnv
               [MapPress (pressAt pointA); MapPress (pressAt pointB);
                MapPress (pressAt pointC); CompletePress]
               (fst (mount grantedEnv)))
  = [RouterPush "/(tabs)/travel/routescreen"
                (JSON_stringify print_zero [pointA; pointB; pointC])].
Proof.
  exact (proj1 (three_taps_then_complete_pushes_in_order
                  print_zero grantedEnv pointA pointB pointC
                  (fst (mount grantedEnv)) eq_refl eq_refl)).
Defined.

Lemma permission_denied_witness :
  render (fst (mount (mkEnvironment (Fulfilled "denied")
                                    (Rejected "not asked"))))
  = ErrorScreen (Some "Permission to access location was denied").
Proof.
  refine (proj1 (proj2 (permission_denied_blocks_selection
                          print_zero "denied" (Rejected "not asked") _))).
  discriminate.
Defined.

Lemma recenter_press_witness :
  press print_zero grantedEnv (LocatePress (Rejected "timeout"))
        (fst (mount grantedEnv))
  = (fst (mount grantedEnv),
     [GetCurrentPositionAsync (mkLocationOptions Highest None);
      Alert "Could not get current location";
      ConsoleError "Location error:" "timeout"]).
Proof.
  pose proof
       (recenter_press_fetches_animates_and_keeps_state
          print_zero grantedEnv (fst (mount grantedEnv)) (Rejected "timeout")
          (reachable_mounted print_zero grantedEnv (fst (mount grantedEnv))
                             (reaches_refl print_zero (fst (mount grantedEnv))))
          eq_refl)
    as (Hstate & _ & _ & Hfail).
  destruct (Hfail "timeout" eq_refl) as [Hlog _].
  rewrite (surjective_pairing (press _ _ _ _)), Hstate, Hlog. reflexivity.
Defined.

(** Runs for the further properties. *)

Lemma tap_then_undo_witness :
  presses print_zero grantedEnv [MapPress (pressAt pointC); UndoPress]
          (taps [pointA; pointB] (fst (mount grantedEnv)))
  = (taps [pointA; pointB] (fst (mount grantedEnv)), []).
Proof.
  exact (tap_then_undo_restores_state
           print_zero grantedEnv pointC
           (taps [pointA; pointB] (fst (mount grantedEnv))) eq_refl).
Defined.

Lemma reset_is_undo_witness :
  fst (press print_zero grantedEnv ResetPress threePoints)
  = fst (presses print_zero grantedEnv (repeat UndoPress 3) threePoints).
Proof.
  exact (reset_is_undo_of_every_point print_zero grantedEnv threePoints eq_refl).
Defined.

Lemma map_screen_is_never_left_witness :
  mapRef_current
    (fst (press print_zero fallbackEnv (MapPress (pressAt pointA))
                (fst (mount fallbackEnv)))) = true
  /\ errorMsg
       (fst (press print_zero fallbackEnv (MapPress (pressAt pointA))
                   (fst (mount fallbackEnv))))
     = Some "Could not fetch location. Please check your GPS settings.".
Proof.
  assert (Hreg : region (fst (mount fallbackEnv)) <> None) by discriminate.
  pose proof
       (map_screen_is_never_left
          print_zero fallbackEnv _ Hreg
          (reaches_press print_zero (fst (mount fallbackEnv)) fallbackEnv
                         (MapPress (pressAt pointA)) (fst (mount fallbackEnv))
                         (reaches_refl print_zero _) eq_refl))
    as (Hmap & _ & _ & _ & Hmsg).
  split; [exact Hmap | exact Hmsg].
Defined.

Lemma too_few_points_alert_witness :
  press print_zero grantedEnv CompletePress threePoints
  = (threePoints,
     [RouterPush "/(tabs)/travel/routescreen"
                 (JSON_stringify print_zero [pointA; pointB; pointC])]).
Proof.
  exact (proj2 (too_few_points_alert_is_unreachable
                  print_zero grantedEnv CompletePress threePoints eq_refl)
               eq_refl).
Defined.

Lemma undo_when_offered_witness :
  S (List.length
       (polygonPoints (fst (press print_zero grantedEnv UndoPress threePoints))))
  = 3%nat.
Proof.
  exact (undo_when_offered_removes_one_point
           print_zero grantedEnv threePoints eq_refl).
Defined.

Lemma loading_flags_agree_witness :
  loading (fst (mount grantedEnv)) = loadingLocation (fst (mount grantedEnv)).
Proof.
  exact (proj1 (loading_flags_agree_at_rest
                  print_zero (fst (mount grantedEnv))
                  (reachable_mounted print_zero grantedEnv _
                                     (reaches_refl print_zero _)))).
Defined.

Lemma tap_adds_next_marker_witness :
  markers (fst (press print_zero grantedEnv (MapPress (pressAt pointC))
                      (taps [pointA; pointB] (fst (mount grantedEnv)))))
  = [mkMarker 0 pointA 1; mkMarker 1 pointB 2; mkMarker 2 pointC 3].
Proof.
  exact (tap_adds_next_marker
           print_zero grantedEnv pointC
           (taps [pointA; pointB] (fst (mount grantedEnv))) eq_refl).
Defined.
